(** * Output profiles ([src/javascript/profile.js])

    A shallow embedding of the [profile] module of zen-coding/emmet and the
    properties of its registry and accessors.

    Modelling conventions.

    - JavaScript values are split in two layers.  [prim] holds the primitive
      values (undefined, null, booleans, numbers, strings); [val] adds
      references to heap objects.  Option values and the scalar parameters
      documented as [{String}] in the source range over [prim]; an object is
      a flat record of primitive-valued properties.
    - Numbers are modelled by the integers (the only numeric option,
      [inline_break], is a count).
    - Strings are sequences of 8-bit characters; [toLowerCase] and
      [toUpperCase] map the ASCII letters and leave other characters alone.
    - The language semantics followed is ECMAScript 5.1, non-strict code.
      An operation either completes normally or throws ([completion]).
      [Object.prototype] has the members of ES5.1 §15.2.4; the
      non-standard [__proto__] accessor is not modelled.
    - Objects live in a heap (a list indexed by location, allocation appends),
      so that identity and in-place mutation are visible.
    - [_.extend], [_.defaults] and [_.isString] come from Underscore (1.3),
      which is not part of this module; they are modelled from their
      documented behaviour.  [getSubset] (resources) and
      [getCaretPlaceholder] (utils) are collaborators taken as parameters. *)

From Stdlib Require Import ZArith Ascii String List Bool Lia.
From stdpp Require Import base option list gmap strings pretty fin_maps.

Open Scope string_scope.

(** ** Values *)

Inductive prim : Type :=
| PUndef
| PNull
| PBool (b : bool)
| PNum (n : Z)
| PStr (s : string).

Definition loc := nat.

Inductive val : Type :=
| VPrim (p : prim)
| VRef (l : loc).

Definition undefined : val := VPrim PUndef.
Definition VStr (s : string) : val := VPrim (PStr s).

Inductive error : Type :=
| TypeError.

(** Completion of an expression: a value, or a thrown exception. *)
Inductive completion (A : Type) : Type :=
| Normal (a : A)
| Throw (e : error).
Arguments Normal {A} a.
Arguments Throw {A} e.


#[global] Instance prim_eq_dec : EqDecision prim.
Proof. solve_decision. Defined.

#[global] Instance val_eq_dec : EqDecision val.
Proof. solve_decision. Defined.

(** ** Strings *)

(** The one-character string holding a double quote. *)
Definition dquote : string := String "034"%char EmptyString.

Definition is_upper (c : ascii) : bool :=
  let n := nat_of_ascii c in (65 <=? n)%nat && (n <=? 90)%nat.

Definition is_lower (c : ascii) : bool :=
  let n := nat_of_ascii c in (97 <=? n)%nat && (n <=? 122)%nat.

Definition lower_char (c : ascii) : ascii :=
  if is_upper c then ascii_of_nat (nat_of_ascii c + 32) else c.

Definition upper_char (c : ascii) : ascii :=
  if is_lower c then ascii_of_nat (nat_of_ascii c - 32) else c.

Fixpoint map_string (f : ascii -> ascii) (s : string) : string :=
  match s with
  | EmptyString => EmptyString
  | String c s' => String (f c) (map_string f s')
  end.

(** [s.toLowerCase()] and [s.toUpperCase()] on a string [s], on the ASCII
    letters.  The Unicode mappings of the language agree with them on ASCII
    text and differ beyond it (they may even change the length of a
    string). *)
Definition toLowerCase (s : string) : string := map_string lower_char s.
Definition toUpperCase (s : string) : string := map_string upper_char s.

(** ** Conversions (ES5.1 §9) *)

(** ToBoolean. *)
Definition truthy (p : prim) : bool :=
  match p with
  | PUndef | PNull => false
  | PBool b => b
  | PNum n => negb (n =? 0)%Z
  | PStr s => negb (String.eqb s "")
  end.

(** Objects are always truthy. *)
Definition truthy_val (v : val) : bool :=
  match v with
  | VPrim p => truthy p
  | VRef _ => true
  end.

(** [String(p)] on a primitive.  A number prints its decimal digits (the
    exponent form of very large numbers is not modelled). *)
Definition to_string (p : prim) : string :=
  match p with
  | PUndef => "undefined"
  | PNull => "null"
  | PBool true => "true"
  | PBool false => "false"
  | PNum n => pretty n
  | PStr s => s
  end.

(** [p == lit] where [lit] is a string literal that does not denote a number
    ([ToNumber lit] is NaN, as for ['single'] and ['xhtml']): undefined and
    null are only equal to each other; a number is compared with NaN and a
    boolean is first converted to a number, so both give false; two strings
    are compared character by character. *)
Definition loose_eq_word (p : prim) (lit : string) : bool :=
  match p with
  | PStr s => String.eqb s lit
  | _ => false
  end.

(** [p === true]. *)
Definition strict_eq_true (p : prim) : bool :=
  match p with
  | PBool true => true
  | _ => false
  end.

(** [a || b]. *)
Definition or_else (a b : prim) : prim := if truthy a then a else b.

(** [p.toLowerCase()] and [p.toUpperCase()] on a primitive receiver: only
    strings have these methods; on undefined and null the property access
    throws, on booleans and numbers the call of an undefined member does. *)
Definition call_toLowerCase (p : prim) : completion prim :=
  match p with
  | PStr s => Normal (PStr (toLowerCase s))
  | _ => Throw TypeError
  end.

Definition call_toUpperCase (p : prim) : completion prim :=
  match p with
  | PStr s => Normal (PStr (toUpperCase s))
  | _ => Throw TypeError
  end.

(** ** [stringCase] (lines 102-111) *)

(** The scrutinee of the switch: [String(caseValue || '').toLowerCase()]. *)
Definition case_key (caseValue : prim) : string :=
  toLowerCase (to_string (or_else caseValue (PStr ""))).

Definition stringCase (str caseValue : prim) : completion prim :=
  let c := case_key caseValue in
  if String.eqb c "lower" then call_toLowerCase str
  else if String.eqb c "upper" then call_toUpperCase str
  else Normal str.


(** ** Objects and the heap *)

(** The [[Prototype]] of a heap object: [Object.prototype] for object
    literals, [OutputProfile.prototype] for objects built by
    [new OutputProfile(..)]. *)
Inductive class : Type :=
| Plain
| Profile.

#[global] Instance class_eq_dec : EqDecision class.
Proof. solve_decision. Defined.

(** An object: its prototype and its own (enumerable, writable) data
    properties. *)
Record obj : Type := Obj {
  cls : class;
  props : gmap string prim
}.

(** Property names of [Object.prototype] (ES5.1 §15.2.4); all of them are
    built-in functions. *)
Definition object_prototype_keys : list string :=
  ["constructor"; "toString"; "toLocaleString"; "valueOf";
   "hasOwnProperty"; "isPrototypeOf"; "propertyIsEnumerable"].

(** Property names of [OutputProfile.prototype] (lines 43-92). *)
Definition profile_prototype_keys : list string :=
  ["tagName"; "attributeName"; "attributeQuote"; "selfClosing"; "cursor"].

(** Names reachable through the prototype chain of an object. *)
Definition inherited (c : class) : list string :=
  match c with
  | Plain => object_prototype_keys
  | Profile => profile_prototype_keys ++ object_prototype_keys
  end.

(** [k in o]: own property or inherited one. *)
Definition has_property (o : obj) (k : string) : bool :=
  match props o !! k with
  | Some _ => true
  | None => bool_decide (k ∈ inherited (cls o))
  end.

(** [typeof o[m] == "function"]: own properties are data and shadow the
    prototype; every inherited member is a function. *)
Definition has_method (o : obj) (m : string) : bool :=
  match props o !! m with
  | Some _ => false
  | None => bool_decide (m ∈ inherited (cls o))
  end.

(** [o[k]] for an option name [k].  No prototype defines a property named
    like an option, so the read sees the own property or undefined. *)
Definition field (o : obj) (k : string) : prim :=
  default PUndef (props o !! k).

(** [o[k] = v]. *)
Definition set_field (o : obj) (k : string) (v : prim) : obj :=
  Obj (cls o) (<[k := v]> (props o)).

(** Module state: the heap, the own properties of the [profiles] object
    (line 8) and the lines written to the console. *)
Record state : Type := State {
  heap : list obj;
  profiles : gmap string loc;
  console : list string
}.

(** The object a reference points to.  References handed out by the module
    are always allocated; an unallocated one reads as an empty object. *)
Definition deref (h : list obj) (l : loc) : obj :=
  default (Obj Plain ∅) (h !! l).

(** Allocation of a new object. *)
Definition alloc (o : obj) (σ : state) : loc * state :=
  (length (heap σ), State (heap σ ++ [o]) (profiles σ) (console σ)).

(** ** [defaultProfile] (lines 10-32) *)

Definition defaultProfile_fields : list (string * prim) :=
  [("tag_case", PStr "lower");
   ("attr_case", PStr "lower");
   ("attr_quotes", PStr "double");
   ("tag_nl", PStr "decide");
   ("place_cursor", PBool true);
   ("indent", PBool true);
   ("inline_break", PNum 3);
   ("self_closing_tag", PStr "xhtml");
   ("filters", PStr "")].

Definition defaultProfile : gmap string prim :=
  list_to_map defaultProfile_fields.

(** ** Underscore helpers *)

(** The characters of a string as index properties ["0"], ["1"], ... *)
Fixpoint string_entries (i : nat) (s : string) : list (string * prim) :=
  match s with
  | EmptyString => []
  | String c s' => (pretty i, PStr (String c EmptyString)) :: string_entries (S i) s'
  end.

(** Modelled from the spec: Underscore is not part of this module.  The
    properties visited by [for (prop in v)] in its [_.extend] and
    [_.defaults], with their values.  Nothing for
    undefined, null, booleans and numbers; the index properties of a string;
    the own properties of an object (the methods of
    [OutputProfile.prototype] are enumerable too, but copying a method onto
    an object that inherits the same method from the same prototype changes
    no lookup, and data properties are what this model tracks). *)
Definition enumerable (h : list obj) (v : val) : gmap string prim :=
  match v with
  | VPrim (PStr s) => list_to_map (string_entries 0 s)
  | VPrim _ => ∅
  | VRef l => props (deref h l)
  end.

(** Modelled from the spec: Underscore's [_.extend(obj, src1, src2, ..)]
    copies every property of each source onto [obj], later sources winning
    (options on top of the defaults). *)
Definition extend (o : gmap string prim) (sources : list (gmap string prim))
  : gmap string prim :=
  foldl (fun acc src => src ∪ acc) o sources.

Definition nullish (p : prim) : bool :=
  match p with
  | PUndef | PNull => true
  | _ => false
  end.

(** Modelled from the spec: Underscore's [_.defaults(obj, src)] runs
    [if (obj[prop] == null) obj[prop] = src[prop]] for every property of
    [src], so a property of [obj] is filled when it is missing or holds
    undefined or null. *)
Definition defaults (o src : gmap string prim) : gmap string prim :=
  merge (fun mine theirs =>
           match mine, theirs with
           | Some v, Some d => if nullish v then Some d else Some v
           | Some v, None => Some v
           | None, d => d
           end) o src.

(** Modelled from the spec: Underscore's [_.isString(v)], true of a textual
    identifier; the universe of values has no String wrapper objects. *)
Definition isString (v : val) : bool :=
  match v with
  | VPrim (PStr _) => true
  | _ => false
  end.

(** ** [OutputProfile] (lines 39-92) *)

(** The object initialised by [new OutputProfile(options)]. *)
Definition OutputProfile (h : list obj) (options : val) : obj :=
  Obj Profile (extend ∅ [defaultProfile; enumerable h options]).

Definition tagName (this : obj) (name : prim) : completion prim :=
  stringCase name (field this "tag_case").

Definition attributeName (this : obj) (name : prim) : completion prim :=
  stringCase name (field this "attr_case").

Definition attributeQuote (this : obj) : string :=
  if loose_eq_word (field this "attr_quotes") "single" then "'" else dquote.

Definition selfClosing (this : obj) : string :=
  if loose_eq_word (field this "self_closing_tag") "xhtml" then " /"
  else if strict_eq_true (field this "self_closing_tag") then "/"
  else "".

(** ** The registry *)

(** [v.toLowerCase()] on any value: an object of this universe has no
    callable [toLowerCase] member. *)
Definition val_toLowerCase (v : val) : completion string :=
  match v with
  | VPrim (PStr s) => Normal (toLowerCase s)
  | _ => Throw TypeError
  end.

(** [createProfile] (lines 118-120).  The key of the assignment target is
    evaluated before the right-hand side, so nothing is allocated when
    [name.toLowerCase()] throws.  Every key is stored as an own property,
    as ES5.1 has it; where the engine provides the [__proto__] accessor,
    that one key sets the prototype of [profiles] instead. *)
Definition createProfile (name options : val) (σ : state)
  : completion val * state :=
  match val_toLowerCase name with
  | Throw e => (Throw e, σ)
  | Normal key =>
      let l := length (heap σ) in
      (Normal (VRef l),
       State (heap σ ++ [OutputProfile (heap σ) options])
             (<[key := l]> (profiles σ))
             (console σ))
  end.

(** [_.defaults(target, defaultProfile)] on a value: an object is updated in
    place; property writes on a primitive are dropped (non-strict code).
    The call returns its first argument. *)
Definition defaults_in_place (target : val) (σ : state) : val * state :=
  match target with
  | VPrim _ => (target, σ)
  | VRef l =>
      let o := deref (heap σ) l in
      (target,
       State (<[l := Obj (cls o) (defaults (props o) defaultProfile)]> (heap σ))
             (profiles σ) (console σ))
  end.

(** [arguments[n]], undefined when the argument was not passed. *)
Definition arg (n : nat) (args : list val) : val := nth n args undefined.

(** [create] (lines 136-142), applied to the list of passed arguments. *)
Definition create (args : list val) (σ : state) : completion val * state :=
  if (length args =? 2)%nat then createProfile (arg 0 args) (arg 1 args) σ
  else
    let name := arg 0 args in
    if truthy_val name then
      let '(r, σ') := defaults_in_place name σ in (Normal r, σ')
    else
      let '(l, σ1) := alloc (Obj Plain ∅) σ in
      let '(r, σ') := defaults_in_place (VRef l) σ1 in (Normal r, σ').

(** [k in profiles]: [profiles] is an object literal, so the names of
    [Object.prototype] are found too. *)
Definition in_profiles (σ : state) (k : string) : bool :=
  match profiles σ !! k with
  | Some _ => true
  | None => bool_decide (k ∈ object_prototype_keys)
  end.

(** What a read of [profiles[k]] yields: a stored reference, a built-in
    function of [Object.prototype] (named by its key), or undefined. *)
Inductive resolved : Type :=
| Value (v : val)
| Inherited (k : string).

Definition profiles_get (σ : state) (k : string) : resolved :=
  match profiles σ !! k with
  | Some l => Value (VRef l)
  | None =>
      if bool_decide (k ∈ object_prototype_keys) then Inherited k
      else Value undefined
  end.

(** [remove] (lines 172-176). *)
Definition remove (name : val) (σ : state) : completion val * state :=
  match val_toLowerCase (if truthy_val name then name else VStr "") with
  | Throw e => (Throw e, σ)
  | Normal key =>
      (Normal undefined,
       if in_profiles σ key
       then State (heap σ) (delete key (profiles σ)) (console σ)
       else σ)
  end.

(** [console.log(line)]. *)
Definition log (line : string) (σ : state) : state :=
  State (heap σ) (profiles σ) (console σ ++ [line]).

(** Deprecated [quote] (lines 195-198). *)
Definition quote (param : prim) (σ : state) : string * state :=
  (if loose_eq_word param "single" then "'" else dquote, log "deprecated" σ).

(** Deprecated [selfClosing] (lines 206-215). *)
Definition selfClosing_deprecated (param : prim) (σ : state) : string * state :=
  (if loose_eq_word param "xhtml" then " /"
   else if strict_eq_true param then "/"
   else "",
   log "deprecated" σ).

(** ** Module initialisation (lines 122-126) *)

(** An object literal with the given properties. *)
Definition literal (fields : list (string * prim)) (σ : state) : val * state :=
  let '(l, σ') := alloc (Obj Plain (list_to_map fields)) σ in (VRef l, σ').

Definition init : state :=
  let σ := State [] ∅ [] in
  let σ := snd (createProfile (VStr "xhtml") undefined σ) in
  let '(o, σ) := literal [("self_closing_tag", PBool false)] σ in
  let σ := snd (createProfile (VStr "html") o σ) in
  let '(o, σ) := literal [("self_closing_tag", PBool true); ("tag_nl", PBool true)] σ in
  let σ := snd (createProfile (VStr "xml") o σ) in
  let '(o, σ) := literal [("tag_nl", PBool false); ("indent", PBool false);
                          ("place_cursor", PBool false)] σ in
  snd (createProfile (VStr "plain") o σ).

Section Collaborators.

(** [require('resources').getSubset(syntax, 'profile')]. *)
Variable getSubset : val -> val.

(** [require('utils').getCaretPlaceholder()]. *)
Variable getCaretPlaceholder : string.

(** [cursor] (lines 89-91). *)
Definition cursor (this : obj) : string :=
  if truthy (field this "place_cursor") then getCaretPlaceholder else "".

(** Lines 153-159 of [get]: the syntax-scoped override of the name. *)
Definition substitute (name syntax : val) : val :=
  if truthy_val syntax && isString name then
    let profile := getSubset syntax in
    if truthy_val profile then profile else name
  else name.

(** Line 165 of [get].  The [in] operator throws a TypeError when its right
    operand is not an object (ES5.1 §11.8.7); it is reached when [name] is
    truthy. *)
Definition get_fallback (name : val) (σ : state) : completion resolved * state :=
  match name with
  | VPrim p =>
      if truthy p then (Throw TypeError, σ)
      else (Normal (profiles_get σ "plain"), σ)
  | VRef l =>
      if has_property (deref (heap σ) l) "tag_case" then
        match create [name] σ with
        | (Normal v, σ') => (Normal (Value v), σ')
        | (Throw e, σ') => (Throw e, σ')
        end
      else (Normal (profiles_get σ "plain"), σ)
  end.

(** [get] (lines 152-166); a missing [syntax] is undefined. *)
Definition get (name syntax : val) (σ : state) : completion resolved * state :=
  let name := substitute name syntax in
  match name with
  | VPrim (PStr s) =>
      if in_profiles σ (toLowerCase s)
      then (Normal (profiles_get σ (toLowerCase s)), σ)
      else get_fallback name σ
  | _ => get_fallback name σ
  end.

(** ** Reachable states

    One step of the module's life: a call of an exported operation, or the
    embedding program working on the heap and the console itself (objects it
    allocates, properties it assigns).  The [profiles] object is private to
    the module's closure, so only the exported operations change it. *)
Inductive step : state -> state -> Prop :=
| step_create args σ : step σ (snd (create args σ))
| step_get name syntax σ : step σ (snd (get name syntax σ))
| step_remove name σ : step σ (snd (remove name σ))
| step_quote param σ : step σ (snd (quote param σ))
| step_selfClosing param σ : step σ (snd (selfClosing_deprecated param σ))
| step_client h c σ : step σ (State h (profiles σ) c).

Definition reachable (σ : state) : Prop := rtc step init σ.

End Collaborators.

(** A host without syntax-scoped profile overrides. *)
Definition no_resources : val -> val := fun _ => undefined.

(** Every key of [profiles] is in lower case. *)
Definition keys_lowercased (σ : state) : Prop :=
  forall k l, profiles σ !! k = Some l -> toLowerCase k = k.

(** A caller that builds the options object [{tag_case: "upper"}] right
    after initialisation; the object lands at location 7. *)
Definition upper_options : gmap string prim := {[ "tag_case" := PStr "upper" ]}.

Definition with_upper_options : state :=
  snd (literal [("tag_case", PStr "upper")] init).

(** ** Callers of the module

    A narrower view of the embedding program than [step]: besides calling
    the exported operations it allocates object literals, assigns and
    deletes properties of objects, and writes to the console.  It cannot
    build an [OutputProfile] itself (the constructor is private to the
    module) and it cannot change the prototype of an object. *)

(** [delete o[k]]. *)
Definition delete_field (o : obj) (k : string) : obj :=
  Obj (cls o) (delete k (props o)).

(** A write to the object at [l]; nothing happens when [l] is unallocated. *)
Definition store (l : loc) (f : obj -> obj) (σ : state) : state :=
  State (<[l := f (deref (heap σ) l)]> (heap σ)) (profiles σ) (console σ).

Section Callers.

Variable getSubset : val -> val.

Inductive api_step : state -> state -> Prop :=
| api_create args σ : api_step σ (snd (create args σ))
| api_get name syntax σ : api_step σ (snd (get getSubset name syntax σ))
| api_remove name σ : api_step σ (snd (remove name σ))
| api_quote param σ : api_step σ (snd (quote param σ))
| api_selfClosing param σ : api_step σ (snd (selfClosing_deprecated param σ))
| api_literal fields σ : api_step σ (snd (literal fields σ))
| api_assign l k v σ : api_step σ (store l (fun o => set_field o k v) σ)
| api_delete l k σ : api_step σ (store l (fun o => delete_field o k) σ)
| api_log line σ : api_step σ (log line σ).

Definition api_reachable (σ : state) : Prop := rtc api_step init σ.

End Callers.

(** Every entry of the registry refers to an allocated [OutputProfile]. *)
Definition entries_live (σ : state) : Prop :=
  forall k l, profiles σ !! k = Some l ->
              exists o, heap σ !! l = Some o /\ cls o = Profile.

(** The heap [h'] still holds every object of [h], with its prototype. *)
Definition heap_extends (h h' : list obj) : Prop :=
  forall l o, h !! l = Some o -> exists o', h' !! l = Some o' /\ cls o' = cls o.

(** A host whose resources name the [xml] profile for every syntax. *)
Definition xml_resources : val -> val := fun _ => VStr "xml".

(** * Properties *)

(** ** Case mapping *)

Lemma lower_char_idem (c : ascii) : lower_char (lower_char c) = lower_char c.
Proof. destruct c as [[] [] [] [] [] [] [] []]; reflexivity. Qed.

Lemma toLowerCase_idem (s : string) : toLowerCase (toLowerCase s) = toLowerCase s.
Proof.
  unfold toLowerCase. induction s as [|c s IH]; simpl.
  - reflexivity.
  - now rewrite lower_char_idem, IH.
Qed.

(** A decimal digit is not a letter, in either case. *)
Lemma lower_digit (d : N) : lower_char (pretty_N_char d) = pretty_N_char d.
Proof. unfold pretty_N_char. repeat case_match; reflexivity. Qed.

Lemma digit_not_letter (d : N) :
  pretty_N_char d <> "l"%char /\ pretty_N_char d <> "u"%char.
Proof. unfold pretty_N_char. repeat case_match; split; discriminate. Qed.

(** The digits of a number are pushed in front of the accumulator. *)
Lemma pretty_N_go_head (x : N) (s : string) :
  pretty_N_go x s = s \/ exists d rest, pretty_N_go x s = String (pretty_N_char d) rest.
Proof.
  revert s. induction (N.lt_wf_0 x) as [x _ IH]. intros s.
  destruct (decide (0 < x)%N) as [Hpos|Hzero].
  - right. rewrite pretty_N_go_step by assumption.
    destruct (IH (x `div` 10)%N (N.div_lt x 10 Hpos eq_refl)
                 (String (pretty_N_char (x `mod` 10)) s)) as [->|(d & rest & ->)];
      eauto.
  - left. assert (x = 0%N) as -> by lia. apply pretty_N_go_0.
Qed.

Lemma pretty_positive_head (p : positive) :
  pretty p = "" \/ exists d rest, pretty p = String (pretty_N_char d) rest.
Proof.
  unfold pretty, pretty_positive, pretty, pretty_N.
  destruct (decide (N.pos p = 0%N)) as [|_]; [discriminate|].
  apply pretty_N_go_head.
Qed.

(** The text of a number never reads [lower] or [upper]. *)
Lemma number_key (n : Z) :
  toLowerCase (pretty n) <> "lower" /\ toLowerCase (pretty n) <> "upper".
Proof.
  destruct n as [|p|p]; unfold pretty, pretty_Z.
  - split; discriminate.
  - destruct (pretty_positive_head p) as [->|(d & rest & ->)].
    + split; discriminate.
    + unfold toLowerCase. cbn [map_string]. rewrite lower_digit.
      destruct (digit_not_letter d). split; congruence.
  - split; discriminate.
Qed.

(** Only a string can select a case transform. *)
Lemma case_key_string (c : prim) (k : string) :
  k = "lower" \/ k = "upper" ->
  case_key c = k -> exists t, c = PStr t /\ toLowerCase t = k.
Proof.
  intros Hk Hc. destruct c as [| |[]|n|t]; unfold case_key, or_else in Hc; simpl in Hc.
  - destruct Hk; subst; discriminate.
  - destruct Hk; subst; discriminate.
  - destruct Hk; subst; discriminate.
  - destruct Hk; subst; discriminate.
  - destruct (n =? 0)%Z; simpl in Hc.
    + destruct Hk; subst; discriminate.
    + destruct (number_key n). destruct Hk; subst; contradiction.
  - destruct (String.eqb t "") eqn:Ht; simpl in Hc.
    + destruct Hk; subst; discriminate.
    + eauto.
Qed.

(** ** [stringCase] *)

Example stringCase_mixed : stringCase (PStr "DiV") (PStr "upper") = Normal (PStr "DIV").
Proof. reflexivity. Qed.

Example stringCase_empty_case (s : string) : stringCase (PStr s) (PStr "") = Normal (PStr s).
Proof. reflexivity. Qed.

Example stringCase_undefined_case (s : string) : stringCase (PStr s) PUndef = Normal (PStr s).
Proof. reflexivity. Qed.

Example stringCase_number_case : stringCase (PStr "DiV") (PNum 12) = Normal (PStr "DiV").
Proof. vm_compute. reflexivity. Qed.

(** C9.  For every string [s], [stringCase(s, "lower")] is [s] lowercased
    and [stringCase(s, "upper")] is [s] uppercased. *)
Theorem stringCase_lower_upper (s : string) :
  stringCase (PStr s) (PStr "lower") = Normal (PStr (toLowerCase s)) /\
  stringCase (PStr s) (PStr "upper") = Normal (PStr (toUpperCase s)).
Proof. split; reflexivity. Qed.

(** C1, as stated, fails: the case value is lowercased before it is compared,
    so ["LOWER"], which is neither ["lower"] nor ["upper"], still selects the
    lowercase transform and ["A"] does not come back unchanged. *)
Lemma stringCase_uppercase_case_value :
  PStr "LOWER" <> PStr "lower" /\
  PStr "LOWER" <> PStr "upper" /\
  stringCase (PStr "A") (PStr "LOWER") = Normal (PStr "a") /\
  stringCase (PStr "A") (PStr "LOWER") <> Normal (PStr "A").
Proof. repeat split; discriminate. Qed.

(** C1 (amended).  For every string [s] and every case value [c] that is
    not a string reading ["lower"] or ["upper"] once lowercased (so for
    ["leave"], the empty string, undefined, and every non-string),
    [stringCase(s, c)] returns [s] unchanged. *)
Theorem stringCase_other_case (s : string) (c : prim) :
  (forall t, c = PStr t -> toLowerCase t <> "lower" /\ toLowerCase t <> "upper") ->
  stringCase (PStr s) c = Normal (PStr s).
Proof.
  intros Hc. unfold stringCase.
  destruct (String.eqb_spec (case_key c) "lower") as [Hl|_].
  { destruct (case_key_string c "lower") as (t & -> & Ht); auto.
    destruct (Hc t eq_refl). contradiction. }
  destruct (String.eqb_spec (case_key c) "upper") as [Hu|_].
  { destruct (case_key_string c "upper") as (t & -> & Ht); auto.
    destruct (Hc t eq_refl). contradiction. }
  reflexivity.
Qed.

Lemma stringCase_other_case_witness :
  (forall t, PStr "leave" = PStr t ->
             toLowerCase t <> "lower" /\ toLowerCase t <> "upper") /\
  stringCase (PStr "Div") (PStr "leave") = Normal (PStr "Div").
Proof.
  assert (H : forall t, PStr "leave" = PStr t ->
                        toLowerCase t <> "lower" /\ toLowerCase t <> "upper").
  { intros t [= <-]. split; discriminate. }
  split; [exact H | exact (stringCase_other_case "Div" (PStr "leave") H)].
Defined.

(** ** Accessors *)

Lemma loose_eq_word_spec (p : prim) (lit : string) :
  loose_eq_word p lit = true <-> p = PStr lit.
Proof.
  destruct p as [| |b|n|s]; simpl; try (split; [discriminate|congruence]).
  rewrite String.eqb_eq. split; congruence.
Qed.

Lemma strict_eq_true_spec (p : prim) : strict_eq_true p = true <-> p = PBool true.
Proof. destruct p as [| |[]|n|s]; simpl; split; congruence. Qed.

(** C4.  For every profile [p], [p.selfClosing()] returns [" /"] exactly
    when [p.self_closing_tag == "xhtml"], returns ["/"] exactly when
    [p.self_closing_tag] is the boolean true, and returns the empty string
    for every other value, among them false and an omitted field. *)
Theorem selfClosing_cases (p : obj) :
  let v := field p "self_closing_tag" in
  (selfClosing p = " /" <-> loose_eq_word v "xhtml" = true) /\
  (loose_eq_word v "xhtml" = true <-> v = PStr "xhtml") /\
  (selfClosing p = "/" <-> v = PBool true) /\
  (selfClosing p = "" <-> v <> PStr "xhtml" /\ v <> PBool true) /\
  (v = PBool false \/ props p !! "self_closing_tag" = None -> selfClosing p = "").
Proof.
  intros v. unfold selfClosing. fold v.
  pose proof (loose_eq_word_spec v "xhtml") as Hx.
  pose proof (strict_eq_true_spec v) as Ht.
  assert (Hv : props p !! "self_closing_tag" = None -> v = PUndef).
  { intros H. unfold v, field. now rewrite H. }
  destruct (loose_eq_word v "xhtml") eqn:Ex; [|destruct (strict_eq_true v) eqn:Et].
  - assert (v = PStr "xhtml") as Hv' by now apply Hx.
    split_and!; try split; intros; try discriminate; try congruence;
      intuition congruence.
  - assert (v = PBool true) as Hv' by now apply Ht.
    split_and!; try split; intros; try discriminate; try congruence;
      intuition congruence.
  - assert (v <> PStr "xhtml") as Hnx by (intros E; apply Hx in E; discriminate).
    assert (v <> PBool true) as Hnt by (intros E; apply Ht in E; discriminate).
    split_and!; try split; intros; try discriminate; try congruence;
      intuition congruence.
Qed.

Lemma field_set_field (o : obj) (k : string) (v : prim) :
  field (set_field o k v) k = v.
Proof. unfold field, set_field. simpl. now rewrite lookup_insert_eq. Qed.

(** C8.  The deprecated free functions mirror the accessors and do not
    depend on the registry: [quote(param)] is the single quote when
    [param == "single"] and the double quote otherwise, which is
    [attributeQuote()] of a profile whose [attr_quotes] is [param];
    [selfClosing(param)] is [" /"] when [param == "xhtml"], ["/"] when
    [param === true] and empty otherwise, which is [selfClosing()] of a
    profile whose [self_closing_tag] is [param].  Both only add the
    deprecation line to the console. *)
Theorem deprecated_mirror (param : prim) (σ : state) (o : obj) :
  fst (quote param σ) = (if decide (param = PStr "single") then "'" else dquote) /\
  fst (quote param σ) = attributeQuote (set_field o "attr_quotes" param) /\
  fst (selfClosing_deprecated param σ) =
    (if decide (param = PStr "xhtml") then " /"
     else if decide (param = PBool true) then "/" else "") /\
  fst (selfClosing_deprecated param σ) =
    selfClosing (set_field o "self_closing_tag" param) /\
  (forall σ', fst (quote param σ') = fst (quote param σ) /\
              fst (selfClosing_deprecated param σ') = fst (selfClosing_deprecated param σ)) /\
  snd (quote param σ) = State (heap σ) (profiles σ) (console σ ++ ["deprecated"]) /\
  snd (selfClosing_deprecated param σ) =
    State (heap σ) (profiles σ) (console σ ++ ["deprecated"]).
Proof.
  unfold attributeQuote, selfClosing. rewrite !field_set_field. simpl.
  pose proof (loose_eq_word_spec param "single") as Hs.
  pose proof (loose_eq_word_spec param "xhtml") as Hx.
  pose proof (strict_eq_true_spec param) as Ht.
  repeat split.
  - destruct (decide (param = PStr "single")) as [E|E].
    + apply Hs in E. now rewrite E.
    + destruct (loose_eq_word param "single"); [|reflexivity].
      exfalso. apply E, Hs. reflexivity.
  - destruct (decide (param = PStr "xhtml")) as [E|E].
    + apply Hx in E. now rewrite E.
    + destruct (loose_eq_word param "xhtml");
        [exfalso; apply E, Hx; reflexivity|].
      destruct (decide (param = PBool true)) as [E'|E'].
      * apply Ht in E'. now rewrite E'.
      * destruct (strict_eq_true param); [|reflexivity].
        exfalso. apply E', Ht. reflexivity.
Qed.

(** ** The registry *)

Lemma createProfile_profiles (name options : val) (σ : state) :
  profiles (snd (createProfile name options σ)) =
  match val_toLowerCase name with
  | Normal key => <[key := length (heap σ)]> (profiles σ)
  | Throw _ => profiles σ
  end.
Proof. unfold createProfile. destruct (val_toLowerCase name); reflexivity. Qed.

Lemma val_toLowerCase_lower (v : val) (key : string) :
  val_toLowerCase v = Normal key -> toLowerCase key = key.
Proof.
  destruct v as [[| | | |s]|l]; simpl; try discriminate.
  intros [= <-]. apply toLowerCase_idem.
Qed.

Lemma createProfile_keys (name options : val) (σ : state) :
  keys_lowercased σ -> keys_lowercased (snd (createProfile name options σ)).
Proof.
  intros Hσ k l. rewrite createProfile_profiles.
  destruct (val_toLowerCase name) as [key|e] eqn:Hkey; [|apply Hσ].
  rewrite lookup_insert_Some. intros [[<- _]|[_ Hk]].
  - eapply val_toLowerCase_lower, Hkey.
  - eapply Hσ, Hk.
Qed.

Lemma defaults_in_place_profiles (target : val) (σ : state) :
  profiles (snd (defaults_in_place target σ)) = profiles σ.
Proof. destruct target; reflexivity. Qed.

(** Without two arguments, [create] leaves the registry alone. *)
Lemma create_object_profiles (args : list val) (σ : state) :
  length args <> 2 -> profiles (snd (create args σ)) = profiles σ.
Proof.
  intros Hlen. unfold create.
  destruct (Nat.eqb_spec (length args) 2) as [|_]; [contradiction|].
  destruct (truthy_val (arg 0 args)).
  - destruct (arg 0 args); reflexivity.
  - reflexivity.
Qed.

Lemma create_keys (args : list val) (σ : state) :
  keys_lowercased σ -> keys_lowercased (snd (create args σ)).
Proof.
  intros Hσ. destruct (decide (length args = 2)) as [Hlen|Hlen].
  - unfold create. rewrite Hlen. simpl. now apply createProfile_keys.
  - intros k l. rewrite create_object_profiles by assumption. apply Hσ.
Qed.

Lemma remove_keys (name : val) (σ : state) :
  keys_lowercased σ -> keys_lowercased (snd (remove name σ)).
Proof.
  intros Hσ k l. unfold remove.
  destruct (val_toLowerCase _) as [key|e]; simpl; [|apply Hσ].
  destruct (in_profiles σ key); simpl; [|apply Hσ].
  rewrite lookup_delete_Some. intros [_ Hk]. eapply Hσ, Hk.
Qed.

Lemma init_profiles :
  profiles init =
  <["plain" := 6]> (<["xml" := 4]> (<["html" := 2]> (<["xhtml" := 0]> ∅))).
Proof. reflexivity. Qed.

Lemma init_keys : keys_lowercased init.
Proof.
  intros k l. rewrite init_profiles, !lookup_insert_Some, lookup_empty.
  intros [[<- _]|[_ [[<- _]|[_ [[<- _]|[_ [[<- _]|[_ H]]]]]]]];
    reflexivity || discriminate.
Qed.

Section Registry.

Variable getSubset : val -> val.

Lemma substitute_no_syntax (name : val) : substitute getSubset name undefined = name.
Proof. reflexivity. Qed.

Lemma get_fallback_profiles (name : val) (σ : state) :
  profiles (snd (get_fallback name σ)) = profiles σ.
Proof.
  destruct name as [p|l]; simpl.
  - destruct (truthy p); reflexivity.
  - destruct (has_property _ _); reflexivity.
Qed.

(** [get] never writes to the registry. *)
Lemma get_profiles (name syntax : val) (σ : state) :
  profiles (snd (get getSubset name syntax σ)) = profiles σ.
Proof.
  unfold get. destruct (substitute getSubset name syntax) as [[| | | |s]|l] eqn:E;
    try (rewrite get_fallback_profiles; reflexivity).
  destruct (in_profiles σ (toLowerCase s)); [reflexivity|].
  apply get_fallback_profiles.
Qed.

Lemma step_keys (σ σ' : state) :
  step getSubset σ σ' -> keys_lowercased σ -> keys_lowercased σ'.
Proof.
  intros Hstep Hσ. destruct Hstep.
  - now apply create_keys.
  - intros k l. rewrite get_profiles. apply Hσ.
  - now apply remove_keys.
  - exact Hσ.
  - exact Hσ.
  - exact Hσ.
Qed.

Lemma reachable_keys (σ : state) : reachable getSubset σ -> keys_lowercased σ.
Proof.
  unfold reachable. intros Hr.
  apply (rtc_ind_r (R := step getSubset) keys_lowercased init); [| |exact Hr].
  - exact init_keys.
  - intros σ1 σ2 _ Hstep IH. eapply step_keys; eassumption.
Qed.

(** A name whose lowercase form is a key of the registry resolves to the
    stored reference. *)
Lemma get_registered (σ : state) (n : string) (l : loc) :
  profiles σ !! toLowerCase n = Some l ->
  get getSubset (VStr n) undefined σ = (Normal (Value (VRef l)), σ).
Proof.
  intros H. unfold get. rewrite substitute_no_syntax. unfold VStr.
  unfold in_profiles, profiles_get. rewrite H. reflexivity.
Qed.

(** C6.  [get] is case-insensitive over registered names: in every state
    the module can reach, the keys of the registry are in lower case, and
    [get] of any case variant of a registered name returns the instance
    stored under that name. *)
Theorem get_case_insensitive (σ : state) (k n : string) (l : loc) :
  reachable getSubset σ ->
  profiles σ !! k = Some l ->
  toLowerCase n = toLowerCase k ->
  toLowerCase k = k /\
  get getSubset (VStr n) undefined σ = (Normal (Value (VRef l)), σ) /\
  get getSubset (VStr k) undefined σ = (Normal (Value (VRef l)), σ).
Proof.
  intros Hr Hk Hn.
  assert (Hlow : toLowerCase k = k) by (eapply reachable_keys; eassumption).
  split; [exact Hlow|].
  split; apply get_registered; congruence.
Qed.

Lemma OutputProfile_option (h : list obj) (options : val) (k : string) (v : prim) :
  enumerable h options !! k = Some v ->
  field (OutputProfile h options) k = v.
Proof.
  intros H. unfold field, OutputProfile, extend. simpl.
  now rewrite (lookup_union_Some_l _ _ _ _ H).
Qed.

Lemma OutputProfile_default (h : list obj) (options : val) (k : string) :
  enumerable h options !! k = None ->
  field (OutputProfile h options) k = field (Obj Profile defaultProfile) k.
Proof.
  intros H. unfold field, OutputProfile, extend. simpl.
  rewrite lookup_union_r by assumption.
  rewrite lookup_union_l by apply lookup_empty. reflexivity.
Qed.

Lemma create_two (name options : val) (σ : state) :
  create [name; options] σ = createProfile name options σ.
Proof. reflexivity. Qed.

(** C7.  The two-argument [create(name, options)] stores a new profile
    under the lowercased name, and [get(name)] then returns exactly that
    instance; options passed to [create] are those of the instance (a
    [self_closing_tag] of true makes [selfClosing()] return ["/"]); a second
    [create] with the same name overwrites the entry, so that [get(name)]
    returns the second instance. *)
Theorem create_get_roundtrip (n : string) (options options2 : val) (σ : state) :
  let l := length (heap σ) in
  let σ1 := snd (create [VStr n; options] σ) in
  let σ2 := snd (create [VStr n; options2] σ1) in
  fst (create [VStr n; options] σ) = Normal (VRef l) /\
  heap σ !! l = None /\
  heap σ1 !! l = Some (OutputProfile (heap σ) options) /\
  profiles σ1 = <[toLowerCase n := l]> (profiles σ) /\
  get getSubset (VStr n) undefined σ1 = (Normal (Value (VRef l)), σ1) /\
  (enumerable (heap σ) options !! "self_closing_tag" = Some (PBool true) ->
   selfClosing (deref (heap σ1) l) = "/") /\
  fst (create [VStr n; options2] σ1) = Normal (VRef (S l)) /\
  heap σ2 !! S l = Some (OutputProfile (heap σ1) options2) /\
  heap σ2 !! l = Some (OutputProfile (heap σ) options) /\
  get getSubset (VStr n) undefined σ2 = (Normal (Value (VRef (S l))), σ2).
Proof.
  intros l σ1 σ2. subst σ2 σ1 l. rewrite !create_two.
  unfold createProfile. simpl.
  assert (Hnew : forall (h : list obj) (o : obj), ((h ++ [o])%list : list obj) !! length h = Some o).
  { intros h o. rewrite lookup_app_r by lia. now rewrite Nat.sub_diag. }
  rewrite length_app. simpl. rewrite Nat.add_1_r.
  split_and!.
  - reflexivity.
  - apply lookup_ge_None_2. lia.
  - apply Hnew.
  - reflexivity.
  - apply get_registered. simpl. apply lookup_insert_eq.
  - intros Hopt. unfold deref. rewrite Hnew. simpl.
    unfold selfClosing. now rewrite (OutputProfile_option _ _ _ _ Hopt).
  - reflexivity.
  - replace (S (length (heap σ)))
      with (length (heap σ ++ [OutputProfile (heap σ) options])%list)
      by (rewrite length_app; simpl; lia).
    apply Hnew.
  - rewrite lookup_app_l by (rewrite length_app; simpl; lia). apply Hnew.
  - apply get_registered. simpl. apply lookup_insert_eq.
Qed.

(** *** Inline options *)

Lemma lookup_defaults (o src : gmap string prim) (k : string) :
  defaults o src !! k =
  match o !! k, src !! k with
  | Some v, Some d => if nullish v then Some d else Some v
  | Some v, None => Some v
  | None, d => d
  end.
Proof.
  unfold defaults. rewrite lookup_merge.
  destruct (o !! k), (src !! k); reflexivity.
Qed.

Lemma defaultProfile_lookup (k : string) (d : prim) :
  (k, d) ∈ defaultProfile_fields -> defaultProfile !! k = Some d.
Proof.
  unfold defaultProfile_fields. intros H.
  repeat (apply elem_of_cons in H as [[= -> ->]|H]; [reflexivity|]).
  now apply elem_of_nil in H.
Qed.

(** No accessor is named like an option. *)
Lemma defaultProfile_no_method (m : string) :
  m ∈ profile_prototype_keys -> defaultProfile !! m = None.
Proof.
  unfold profile_prototype_keys. intros H.
  repeat (apply elem_of_cons in H as [->|H]; [reflexivity|]).
  now apply elem_of_nil in H.
Qed.

Lemma plain_no_accessor (m : string) :
  m ∈ profile_prototype_keys -> bool_decide (m ∈ inherited Plain) = false.
Proof.
  unfold profile_prototype_keys. intros H.
  repeat (apply elem_of_cons in H as [->|H]; [reflexivity|]).
  now apply elem_of_nil in H.
Qed.

Lemma substitute_object (l : loc) (syntax : val) :
  substitute getSubset (VRef l) syntax = VRef l.
Proof. unfold substitute. simpl. now rewrite andb_false_r. Qed.

Lemma deref_Some (h : list obj) (l : loc) (o : obj) :
  h !! l = Some o -> deref h l = o.
Proof. intros H. unfold deref. now rewrite H. Qed.

(** The one-argument [create] on an object. *)
Lemma create_object (σ : state) (l : loc) :
  create [VRef l] σ =
  (Normal (VRef l),
   State (<[l := Obj (cls (deref (heap σ) l))
                     (defaults (props (deref (heap σ) l)) defaultProfile)]> (heap σ))
         (profiles σ) (console σ)).
Proof. reflexivity. Qed.

(** C10.  For every options record [o], the one-argument [create(o)] (and
    [get(o)] when [o] carries [tag_case]) returns [o] itself: the default
    fields [o] lacks are filled in on the caller's own object, the fields it
    has are kept, nothing is allocated, and the result is still a bare
    record, with none of the accessors [tagName], [attributeName],
    [attributeQuote], [selfClosing], [cursor]. *)
Theorem create_in_place (σ : state) (l : loc) (o : obj) :
  heap σ !! l = Some o ->
  let o' := Obj (cls o) (defaults (props o) defaultProfile) in
  let σ' := State (<[l := o']> (heap σ)) (profiles σ) (console σ) in
  create [VRef l] σ = (Normal (VRef l), σ') /\
  length (heap σ') = length (heap σ) /\
  heap σ' !! l = Some o' /\
  (forall l', l' <> l -> heap σ' !! l' = heap σ !! l') /\
  (forall k d, (k, d) ∈ defaultProfile_fields ->
               props o !! k = None -> props o' !! k = Some d) /\
  (forall k d, (k, d) ∈ defaultProfile_fields -> is_Some (props o' !! k)) /\
  (forall k v, props o !! k = Some v -> nullish v = false ->
               props o' !! k = Some v) /\
  (forall k, defaultProfile !! k = None -> props o' !! k = props o !! k) /\
  (cls o = Plain ->
   cls o' = Plain /\
   forall m, m ∈ profile_prototype_keys -> has_method o' m = false) /\
  (forall syntax, has_property o "tag_case" = true ->
                  get getSubset (VRef l) syntax σ = (Normal (Value (VRef l)), σ')).
Proof.
  intros Hl o' σ'. subst σ' o'. simpl.
  split_and!.
  - rewrite create_object, (deref_Some _ _ _ Hl). reflexivity.
  - apply length_insert.
  - apply list_lookup_insert_eq. eapply lookup_lt_Some, Hl.
  - intros l' Hne. apply list_lookup_insert_ne. congruence.
  - intros k d Hk Ho. rewrite lookup_defaults, Ho.
    now apply defaultProfile_lookup.
  - intros k d Hk. rewrite lookup_defaults, (defaultProfile_lookup k d Hk).
    destruct (props o !! k) as [v|]; [destruct (nullish v)|]; eauto.
  - intros k v Ho Hv. rewrite lookup_defaults, Ho, Hv.
    destruct (defaultProfile !! k); reflexivity.
  - intros k Hk. rewrite lookup_defaults, Hk.
    destruct (props o !! k); reflexivity.
  - intros Hcls. split; [exact Hcls|]. intros m Hm.
    unfold has_method. simpl.
    rewrite lookup_defaults, (defaultProfile_no_method m Hm), Hcls.
    destruct (props o !! m); [reflexivity|]. now apply plain_no_accessor.
  - intros syntax Htag. unfold get. rewrite substitute_object.
    unfold get_fallback. rewrite (deref_Some _ _ _ Hl), Htag.
    rewrite create_object, (deref_Some _ _ _ Hl). reflexivity.
Qed.




(** C5: what the code does with a name that is not registered.  For a
    non-empty string [n] whose lowercase form is not found in [profiles],
    line 165 evaluates ['tag_case' in n] on a primitive string, and [get]
    throws a TypeError instead of returning the [plain] profile. *)
Theorem get_unregistered_name_throws (σ : state) (n : string) :
  n <> "" ->
  in_profiles σ (toLowerCase n) = false ->
  get getSubset (VStr n) undefined σ = (Throw TypeError, σ).
Proof.
  intros Hn Hreg. unfold get. rewrite substitute_no_syntax. unfold VStr.
  rewrite Hreg. simpl.
  destruct (String.eqb_spec n "") as [|_]; [contradiction|]. reflexivity.
Qed.

(** *** No exception on the permissive paths *)




End Registry.

(** ** Concrete runs *)

Example init_registry :
  profiles_get init "xhtml" = Value (VRef 0) /\
  profiles_get init "html" = Value (VRef 2) /\
  profiles_get init "xml" = Value (VRef 4) /\
  profiles_get init "plain" = Value (VRef 6) /\
  selfClosing (deref (heap init) 0) = " /" /\
  selfClosing (deref (heap init) 2) = "" /\
  selfClosing (deref (heap init) 4) = "/" /\
  field (deref (heap init) 6) "indent" = PBool false.
Proof. repeat split; reflexivity. Qed.

(** An inherited member of [Object.prototype] is found by [in] and returned
    in place of a profile. *)
Example get_constructor :
  fst (get no_resources (VStr "constructor") undefined init) = Normal (Inherited "constructor").
Proof. reflexivity. Qed.

(** The empty name, being falsy, does reach the [plain] fallback. *)
Example get_empty_name :
  get no_resources (VStr "") undefined init = (Normal (Value (VRef 6)), init).
Proof. reflexivity. Qed.

Lemma stringCase_lower_upper_example :
  stringCase (PStr "Div") (PStr "lower") = Normal (PStr "div") /\
  stringCase (PStr "Div") (PStr "upper") = Normal (PStr "DIV").
Proof. exact (stringCase_lower_upper "Div"). Defined.




(** The failing input of C5, and [get("xhtml")] after [remove("xhtml")]. *)
Lemma get_unregistered_name_throws_witness :
  profiles_get init "plain" = Value (VRef 6) /\
  get no_resources (VStr "nonexistent-name") undefined init = (Throw TypeError, init) /\
  fst (get no_resources (VStr "xhtml") undefined (snd (remove (VStr "xhtml") init)))
  = Throw TypeError.
Proof.
  split_and!.
  - reflexivity.
  - apply (get_unregistered_name_throws no_resources init "nonexistent-name");
      [discriminate|reflexivity].
  - rewrite (get_unregistered_name_throws no_resources
               (snd (remove (VStr "xhtml") init)) "xhtml");
      [reflexivity|discriminate|reflexivity].
Defined.

Lemma get_case_insensitive_witness :
  let σ := snd (create [VStr "MyProfile"; undefined] init) in
  reachable no_resources σ /\
  profiles σ !! "myprofile" = Some 7 /\
  get no_resources (VStr "MYPROFILE") undefined σ = (Normal (Value (VRef 7)), σ) /\
  get no_resources (VStr "XHTML") undefined σ = (Normal (Value (VRef 0)), σ) /\
  get no_resources (VStr "xhtml") undefined σ = (Normal (Value (VRef 0)), σ).
Proof.
  intros σ.
  assert (Hr : reachable no_resources σ).
  { apply rtc_once. apply (step_create no_resources). }
  destruct (get_case_insensitive no_resources σ "myprofile" "MYPROFILE" 7
              Hr eq_refl eq_refl) as (_ & Hmy & _).
  destruct (get_case_insensitive no_resources σ "xhtml" "XHTML" 0
              Hr eq_refl eq_refl) as (_ & Hupper & Hlower).
  repeat split; assumption.
Defined.

Lemma create_get_roundtrip_witness :
  let σ0 := snd (literal [("self_closing_tag", PBool true)] init) in
  let σ1 := snd (create [VStr "custom"; VRef 7] σ0) in
  get no_resources (VStr "custom") undefined σ1 = (Normal (Value (VRef 8)), σ1) /\
  selfClosing (deref (heap σ1) 8) = "/".
Proof.
  intros σ0 σ1.
  destruct (create_get_roundtrip no_resources "custom" (VRef 7) undefined σ0)
    as (_ & _ & _ & _ & Hget & Hclose & _).
  split; [exact Hget|]. apply Hclose. reflexivity.
Defined.

Lemma create_in_place_witness :
  let r := create [VRef 7] with_upper_options in
  fst r = Normal (VRef 7) /\
  length (heap (snd r)) = length (heap with_upper_options) /\
  field (deref (heap (snd r)) 7) "tag_case" = PStr "upper" /\
  field (deref (heap (snd r)) 7) "inline_break" = PNum 3 /\
  has_method (deref (heap (snd r)) 7) "selfClosing" = false.
Proof.
  intros r. subst r.
  destruct (create_in_place no_resources with_upper_options 7
              (Obj Plain upper_options) eq_refl)
    as (Hcreate & Hlen & _).
  rewrite Hcreate. split_and!; [reflexivity|exact Hlen|reflexivity..].
Defined.

(** * Further properties *)

(** ** Case transforms *)

Lemma upper_char_idem (c : ascii) : upper_char (upper_char c) = upper_char c.
Proof. destruct c as [[] [] [] [] [] [] [] []]; reflexivity. Qed.

Lemma lower_upper_char (c : ascii) : lower_char (upper_char c) = lower_char c.
Proof. destruct c as [[] [] [] [] [] [] [] []]; reflexivity. Qed.

Lemma toUpperCase_idem (s : string) : toUpperCase (toUpperCase s) = toUpperCase s.
Proof.
  unfold toUpperCase. induction s as [|c s IH]; simpl.
  - reflexivity.
  - now rewrite upper_char_idem, IH.
Qed.

Lemma toLowerCase_toUpperCase (s : string) :
  toLowerCase (toUpperCase s) = toLowerCase s.
Proof.
  unfold toLowerCase, toUpperCase. induction s as [|c s IH]; simpl.
  - reflexivity.
  - now rewrite lower_upper_char, IH.
Qed.

Lemma length_map_string (f : ascii -> ascii) (s : string) :
  String.length (map_string f s) = String.length s.
Proof. induction s as [|c s IH]; simpl; congruence. Qed.

Lemma case_key_str (c : string) : case_key (PStr c) = toLowerCase c.
Proof.
  unfold case_key, or_else. simpl.
  destruct (String.eqb_spec c "") as [->|_]; reflexivity.
Qed.

(** X1.  A case transform applied twice is the transform applied once: for
    every string and every case value, [stringCase] returns a string on
    which [stringCase] with the same case value is the identity; so do
    [tagName] and [attributeName] of every profile. *)
Theorem stringCase_idempotent (s : string) (c : prim) (p : obj) :
  (exists r, stringCase (PStr s) c = Normal (PStr r) /\
             stringCase (PStr r) c = Normal (PStr r)) /\
  (exists r, tagName p (PStr s) = Normal (PStr r) /\
             tagName p (PStr r) = Normal (PStr r)) /\
  (exists r, attributeName p (PStr s) = Normal (PStr r) /\
             attributeName p (PStr r) = Normal (PStr r)).
Proof.
  assert (H : forall c', exists r, stringCase (PStr s) c' = Normal (PStr r) /\
                                   stringCase (PStr r) c' = Normal (PStr r)).
  { intros c'. unfold stringCase.
    destruct (String.eqb (case_key c') "lower") eqn:El;
      [|destruct (String.eqb (case_key c') "upper") eqn:Eu]; simpl.
    - exists (toLowerCase s). rewrite toLowerCase_idem. split; reflexivity.
    - exists (toUpperCase s). rewrite toUpperCase_idem. split; reflexivity.
    - exists s. split; reflexivity. }
  split_and!.
  - apply H.
  - unfold tagName. apply H.
  - unfold attributeName. apply H.
Qed.

(** X2.  The case value is read without regard to letter case: a string
    case value, its lowercase form and its uppercase form select the same
    transform, whatever the transformed value is. *)
Theorem stringCase_case_insensitive (str : prim) (c : string) :
  stringCase str (PStr (toLowerCase c)) = stringCase str (PStr c) /\
  stringCase str (PStr (toUpperCase c)) = stringCase str (PStr c).
Proof.
  unfold stringCase. rewrite !case_key_str.
  now rewrite toLowerCase_idem, toLowerCase_toUpperCase.
Qed.

(** ** The constructor *)

Lemma OutputProfile_lookup (h : list obj) (options : val) (k : string) :
  props (OutputProfile h options) !! k =
  match enumerable h options !! k with
  | Some v => Some v
  | None => defaultProfile !! k
  end.
Proof.
  unfold OutputProfile, extend. simpl.
  destruct (enumerable h options !! k) as [v|] eqn:E.
  - now rewrite (lookup_union_Some_l _ _ _ _ E).
  - rewrite lookup_union_r by assumption.
    now rewrite lookup_union_l by apply lookup_empty.
Qed.

(** The text of an index is empty or starts with a digit. *)
Lemma pretty_nat_head (i : nat) :
  pretty i = "" \/ exists d rest, pretty i = String (pretty_N_char d) rest.
Proof.
  unfold pretty, pretty_nat, pretty, pretty_N.
  destruct (decide (N.of_nat i = 0%N)) as [_|_].
  - right. exists 0%N, "". reflexivity.
  - apply pretty_N_go_head.
Qed.

(** No index is the name of an option. *)
Lemma index_not_option (i : nat) (k : string) (d : prim) :
  (k, d) ∈ defaultProfile_fields -> pretty i <> k.
Proof.
  intros Hk Heq. subst k.
  destruct (pretty_nat_head i) as [E|(n & rest & E)]; rewrite E in Hk;
    unfold defaultProfile_fields in Hk;
    repeat (apply elem_of_cons in Hk as [Hk|Hk];
            [try discriminate Hk;
             injection Hk as Hc _ _; revert Hc;
             unfold pretty_N_char; repeat case_match; discriminate|]);
    now apply elem_of_nil in Hk.
Qed.

Lemma string_entries_option (i : nat) (s : string) (k : string) (d : prim) :
  (k, d) ∈ defaultProfile_fields ->
  (list_to_map (string_entries i s) : gmap string prim) !! k = None.
Proof.
  intros Hk. revert i. induction s as [|c s IH]; intros i; simpl.
  - apply lookup_empty.
  - rewrite lookup_insert_ne by (eapply index_not_option, Hk). apply IH.
Qed.

(** X3.  [new OutputProfile(options)] merges the options over the defaults:
    the result is an [OutputProfile] that owns every property of [options]
    with the value given there, takes every other property from
    [defaultProfile], and therefore has all nine option fields; options that
    are not an object (undefined, null, a boolean, a number, a string) leave
    the nine fields at their defaults. *)
Theorem OutputProfile_fields (h : list obj) (options : val) :
  cls (OutputProfile h options) = Profile /\
  (forall k v, enumerable h options !! k = Some v ->
               props (OutputProfile h options) !! k = Some v) /\
  (forall k, enumerable h options !! k = None ->
             props (OutputProfile h options) !! k = defaultProfile !! k) /\
  (forall k d, (k, d) ∈ defaultProfile_fields ->
               is_Some (props (OutputProfile h options) !! k)) /\
  (forall p k d, (k, d) ∈ defaultProfile_fields ->
                 props (OutputProfile h (VPrim p)) !! k = Some d).
Proof.
  split_and!.
  - reflexivity.
  - intros k v E. now rewrite OutputProfile_lookup, E.
  - intros k E. now rewrite OutputProfile_lookup, E.
  - intros k d Hk. rewrite OutputProfile_lookup.
    destruct (enumerable h options !! k); [eauto|].
    rewrite (defaultProfile_lookup k d Hk). eauto.
  - intros p k d Hk. rewrite OutputProfile_lookup.
    assert (E : enumerable h (VPrim p) !! k = None).
    { destruct p as [| |b|n|s]; simpl; try apply lookup_empty.
      eapply string_entries_option, Hk. }
    rewrite E. now apply defaultProfile_lookup.
Qed.

Section Accessors.

Variable getCaretPlaceholder : string.

Lemma OutputProfile_field (h : list obj) (options : val) (k : string) (d : prim) :
  (k, d) ∈ defaultProfile_fields ->
  field (OutputProfile h options) k = default d (enumerable h options !! k).
Proof.
  intros Hk. unfold field. rewrite OutputProfile_lookup.
  destruct (enumerable h options !! k); [reflexivity|].
  now rewrite (defaultProfile_lookup k d Hk).
Qed.

(** X4.  The accessors of a profile built from [options] follow the options
    and fall back on the defaults: [tagName] and [attributeName] use the
    option [tag_case] / [attr_case] or else ["lower"], [attributeQuote] the
    option [attr_quotes] or else ["double"], [selfClosing] the option
    [self_closing_tag] or else ["xhtml"], [cursor] the option [place_cursor]
    or else true.  Built without options, a profile lowercases names, quotes
    with the double quote, closes with [" /"] and places the cursor. *)
Theorem accessors_follow_options (h : list obj) (options : val) (name : prim) (s : string) :
  let opt k d := default d (enumerable h options !! k) in
  let p := OutputProfile h options in
  let p0 := OutputProfile h undefined in
  tagName p name = stringCase name (opt "tag_case" (PStr "lower")) /\
  attributeName p name = stringCase name (opt "attr_case" (PStr "lower")) /\
  attributeQuote p =
    (if loose_eq_word (opt "attr_quotes" (PStr "double")) "single"
     then "'" else dquote) /\
  selfClosing p =
    (if loose_eq_word (opt "self_closing_tag" (PStr "xhtml")) "xhtml" then " /"
     else if strict_eq_true (opt "self_closing_tag" (PStr "xhtml")) then "/"
     else "") /\
  cursor getCaretPlaceholder p =
    (if truthy (opt "place_cursor" (PBool true)) then getCaretPlaceholder else "") /\
  tagName p0 (PStr s) = Normal (PStr (toLowerCase s)) /\
  attributeName p0 (PStr s) = Normal (PStr (toLowerCase s)) /\
  attributeQuote p0 = dquote /\
  selfClosing p0 = " /" /\
  cursor getCaretPlaceholder p0 = getCaretPlaceholder.
Proof.
  intros opt p p0. subst opt p p0.
  unfold tagName, attributeName, attributeQuote, selfClosing, cursor.
  rewrite (OutputProfile_field h options "tag_case" (PStr "lower")),
          (OutputProfile_field h options "attr_case" (PStr "lower")),
          (OutputProfile_field h options "attr_quotes" (PStr "double")),
          (OutputProfile_field h options "self_closing_tag" (PStr "xhtml")),
          (OutputProfile_field h options "place_cursor" (PBool true))
    by (unfold defaultProfile_fields; set_solver).
  rewrite (OutputProfile_field h undefined "tag_case" (PStr "lower")),
          (OutputProfile_field h undefined "attr_case" (PStr "lower")),
          (OutputProfile_field h undefined "attr_quotes" (PStr "double")),
          (OutputProfile_field h undefined "self_closing_tag" (PStr "xhtml")),
          (OutputProfile_field h undefined "place_cursor" (PBool true))
    by (unfold defaultProfile_fields; set_solver).
  split_and!; reflexivity.
Qed.

End Accessors.

(** ** [remove] *)

Lemma state_eta (σ : state) : State (heap σ) (profiles σ) (console σ) = σ.
Proof. now destruct σ. Qed.

Lemma in_profiles_false (σ : state) (k : string) :
  in_profiles σ k = false -> profiles σ !! k = None.
Proof. unfold in_profiles. now destruct (profiles σ !! k). Qed.

(** The state after [remove], in one piece: deleting a key that is only
    inherited, or absent, changes nothing. *)
Lemma remove_state (name : val) (σ : state) :
  snd (remove name σ) =
  match val_toLowerCase (if truthy_val name then name else VStr "") with
  | Normal key => State (heap σ) (delete key (profiles σ)) (console σ)
  | Throw _ => σ
  end.
Proof.
  unfold remove. destruct (val_toLowerCase _) as [key|e]; [|reflexivity]. simpl.
  destruct (in_profiles σ key) eqn:Hin; [reflexivity|].
  rewrite delete_id by now apply in_profiles_false.
  symmetry. apply state_eta.
Qed.

Lemma remove_string (n : string) (σ : state) :
  remove (VStr n) σ =
  (Normal undefined,
   if in_profiles σ (toLowerCase n)
   then State (heap σ) (delete (toLowerCase n) (profiles σ)) (console σ)
   else σ).
Proof.
  unfold remove. simpl. destruct (String.eqb_spec n "") as [->|_]; reflexivity.
Qed.

(** X5.  [remove(name)] with a string name returns undefined and deletes
    the entry stored under the lowercased name, and nothing else: the other
    entries, the heap (the profile object itself survives) and the console
    are untouched, and when no entry is stored under that name the state is
    left exactly as it was, also for a name that [profiles] only inherits.
    Removing twice is removing once, and a falsy name is read as the empty
    name. *)
Theorem remove_entry (n : string) (name : val) (σ : state) :
  fst (remove (VStr n) σ) = Normal undefined /\
  profiles (snd (remove (VStr n) σ)) = delete (toLowerCase n) (profiles σ) /\
  heap (snd (remove (VStr n) σ)) = heap σ /\
  console (snd (remove (VStr n) σ)) = console σ /\
  (profiles σ !! toLowerCase n = None -> snd (remove (VStr n) σ) = σ) /\
  snd (remove name (snd (remove name σ))) = snd (remove name σ) /\
  (truthy_val name = false -> remove name σ = remove (VStr "") σ).
Proof.
  split_and!.
  - now rewrite remove_string.
  - rewrite remove_string. simpl.
    destruct (in_profiles σ (toLowerCase n)) eqn:Hin; [reflexivity|].
    symmetry. apply delete_id. now apply in_profiles_false.
  - rewrite remove_string. simpl. now destruct (in_profiles σ (toLowerCase n)).
  - rewrite remove_string. simpl. now destruct (in_profiles σ (toLowerCase n)).
  - intros Hnone. rewrite remove_string. simpl.
    destruct (in_profiles σ (toLowerCase n)); [|reflexivity].
    rewrite delete_id by assumption. apply state_eta.
  - rewrite !remove_state.
    destruct (val_toLowerCase _) as [key|e]; [|reflexivity]. simpl.
    now rewrite delete_delete_eq.
  - intros Hf. unfold remove. now rewrite Hf.
Qed.

(** X6.  Registering a profile under a name that was free and then removing
    it, under any case variant of the name, gives back the registry as it
    was.  The name [__proto__] is excluded: on engines that provide that
    accessor, an assignment to [profiles["__proto__"]] sets the prototype of
    the registry instead of storing an entry, and [remove] does not undo
    it. *)
Theorem create_remove_roundtrip (n n' : string) (options : val) (σ : state) :
  toLowerCase n <> "__proto__" ->
  profiles σ !! toLowerCase n = None ->
  toLowerCase n' = toLowerCase n ->
  profiles (snd (remove (VStr n') (snd (create [VStr n; options] σ)))) = profiles σ.
Proof.
  intros _ Hfree Hn. rewrite remove_state.
  assert (E : val_toLowerCase
                (if truthy_val (VStr n') then VStr n' else VStr "")
              = Normal (toLowerCase n)).
  { simpl. destruct (String.eqb_spec n' "") as [->|_]; simpl; now rewrite <- Hn. }
  rewrite E, create_two. unfold createProfile. simpl.
  rewrite delete_insert_eq. now apply delete_id.
Qed.

Section Lookup.

Variable getSubset : val -> val.

(** ** The fallback of [get] *)

(** X7.  When the name is a falsy value other than the empty string, or an
    object that does not carry [tag_case], [get] returns whatever is stored
    under ["plain"] and changes nothing: an options object without
    [tag_case] is neither used nor completed, whatever else it holds, and
    the syntax is not consulted. *)
Theorem get_plain_fallback (name syntax : val) (σ : state) :
  (exists p, name = VPrim p /\ truthy p = false /\ isString name = false) \/
  (exists l, name = VRef l /\ has_property (deref (heap σ) l) "tag_case" = false) ->
  get getSubset name syntax σ = (Normal (profiles_get σ "plain"), σ).
Proof.
  intros [(p & -> & Hf & Hs)|(l & -> & Htag)]; unfold get, substitute.
  - rewrite Hs, andb_false_r.
    destruct p as [| |b|z|s]; simpl in *; try discriminate; now rewrite ?Hf.
  - simpl. rewrite andb_false_r. simpl. now rewrite Htag.
Qed.


End Lookup.

(** ** [create] without registration *)

(** X9.  [create] called with a truthy primitive as its first argument and
    anything but exactly one more argument, as in [create("custom")],
    registers nothing and builds nothing: it returns that primitive and
    leaves the state as it was. *)
Theorem create_name_only (p : prim) (rest : list val) (σ : state) :
  truthy p = true ->
  length rest <> 1 ->
  create (VPrim p :: rest) σ = (Normal (VPrim p), σ).
Proof.
  intros Hp Hlen. unfold create. simpl.
  destruct (Nat.eqb_spec (length rest) 1) as [|_]; [contradiction|].
  now rewrite Hp.
Qed.

Lemma defaults_empty : defaults ∅ defaultProfile = defaultProfile.
Proof.
  apply map_eq. intros k. rewrite lookup_defaults, lookup_empty.
  now destruct (defaultProfile !! k).
Qed.

Lemma snoc_lookup_new (h : list obj) (o : obj) :
  ((h ++ [o])%list : list obj) !! length h = Some o.
Proof. rewrite lookup_app_r by lia. now rewrite Nat.sub_diag. Qed.

Lemma snoc_insert_new (h : list obj) (o o' : obj) :
  <[length h := o']> ((h ++ [o])%list : list obj) = (h ++ [o'])%list.
Proof. rewrite insert_app_r_alt by lia. now rewrite Nat.sub_diag. Qed.

(** X10.  [create] called without a first argument, or with a falsy one,
    and not with exactly two arguments, allocates a new plain object that
    holds exactly the nine defaults and returns it; the registry, the
    console and the objects already in the heap are as they were, and the
    next such call returns yet another object. *)
Theorem create_fresh_defaults (args : list val) (σ : state) :
  length args <> 2 ->
  truthy_val (arg 0 args) = false ->
  let l := length (heap σ) in
  let σ' := State (heap σ ++ [Obj Plain defaultProfile]) (profiles σ) (console σ) in
  create args σ = (Normal (VRef l), σ') /\
  heap σ !! l = None /\
  (forall l', l' < l -> heap σ' !! l' = heap σ !! l') /\
  fst (create args σ') = Normal (VRef (S l)).
Proof.
  intros Hlen Hf l σ'. subst l σ'.
  assert (Hcreate : forall τ,
    create args τ =
    (Normal (VRef (length (heap τ))),
     State (heap τ ++ [Obj Plain defaultProfile]) (profiles τ) (console τ))).
  { intros τ. unfold create.
    destruct (Nat.eqb_spec (length args) 2) as [|_]; [contradiction|].
    rewrite Hf. unfold alloc, defaults_in_place. simpl.
    unfold deref. rewrite snoc_lookup_new. simpl.
    now rewrite snoc_insert_new, defaults_empty. }
  split_and!.
  - apply Hcreate.
  - apply lookup_ge_None_2. lia.
  - intros l' Hl'. simpl. now apply lookup_app_l.
  - rewrite Hcreate. simpl. rewrite length_app. simpl.
    now rewrite Nat.add_1_r.
Qed.

Section Frames.

Variable getSubset : val -> val.

(** ** What [create] and [get] leave alone *)

(** X11.  Registering a profile under a name other than [__proto__]
    disturbs nothing else: the returned reference is new, so the profile is
    a copy and not the options object; every object already in the heap,
    the options object among them, is unchanged, and so is the console;
    entries under other keys stay, and [get] of every non-empty name with
    another lowercase form gives what it gave before.  ([__proto__] is
    excluded: on engines that provide that accessor, the assignment of line
    119 would set the prototype of the registry and make the fields of the
    new profile visible to [in].) *)
Theorem create_frame (n : string) (options : val) (σ : state) :
  toLowerCase n <> "__proto__" ->
  let σ1 := snd (create [VStr n; options] σ) in
  (forall l', l' < length (heap σ) ->
              fst (create [VStr n; options] σ) <> Normal (VRef l') /\
              heap σ1 !! l' = heap σ !! l') /\
  length (heap σ1) = S (length (heap σ)) /\
  console σ1 = console σ /\
  (forall k, k <> toLowerCase n -> profiles σ1 !! k = profiles σ !! k) /\
  (forall m, m <> "" -> toLowerCase m <> toLowerCase n ->
             fst (get getSubset (VStr m) undefined σ1) =
             fst (get getSubset (VStr m) undefined σ)).
Proof.
  intros _ σ1. subst σ1. rewrite create_two. unfold createProfile. simpl.
  split_and!.
  - intros l' Hl'. split.
    + intros [= E]. lia.
    + now apply lookup_app_l.
  - rewrite length_app. simpl. lia.
  - reflexivity.
  - intros k Hk. now apply lookup_insert_ne.
  - intros m Hm Hne. unfold get. rewrite substitute_no_syntax. unfold VStr.
    unfold in_profiles, profiles_get. cbn [profiles].
    rewrite lookup_insert_ne by congruence.
    destruct (profiles σ !! toLowerCase m); [reflexivity|].
    destruct (bool_decide _); [reflexivity|].
    simpl. destruct (String.eqb_spec m "") as [|_]; [contradiction|]. reflexivity.
Qed.

(** The state after [get], in one piece. *)
Lemma get_state (name syntax : val) (σ : state) :
  snd (get getSubset name syntax σ) =
  match substitute getSubset name syntax with
  | VRef l =>
      if has_property (deref (heap σ) l) "tag_case"
      then store l (fun o => Obj (cls o) (defaults (props o) defaultProfile)) σ
      else σ
  | VPrim _ => σ
  end.
Proof.
  unfold get, get_fallback.
  destruct (substitute getSubset name syntax) as [[| |b|z|s]|l].
  - reflexivity.
  - reflexivity.
  - now destruct (truthy (PBool b)).
  - now destruct (truthy (PNum z)).
  - destruct (in_profiles σ (toLowerCase s)); [reflexivity|].
    now destruct (truthy (PStr s)).
  - destruct (has_property _ _); [|reflexivity].
    now rewrite create_object.
Qed.

(** X12.  [get] is a lookup: for every name and syntax it leaves the
    registry and the console as they are and allocates nothing; the only
    object it can change is the one passed (or substituted) as the name, and
    when the name is not an object the whole state is unchanged, whether the
    call returns or throws. *)
Theorem get_readonly (name syntax : val) (σ : state) :
  let σ' := snd (get getSubset name syntax σ) in
  profiles σ' = profiles σ /\
  console σ' = console σ /\
  length (heap σ') = length (heap σ) /\
  (forall l, substitute getSubset name syntax <> VRef l -> heap σ' !! l = heap σ !! l) /\
  ((forall l, substitute getSubset name syntax <> VRef l) -> σ' = σ).
Proof.
  intros σ'. subst σ'. rewrite get_state.
  destruct (substitute getSubset name syntax) as [p|l0] eqn:E.
  - split_and!; reflexivity || (intros; reflexivity).
  - destruct (has_property (deref (heap σ) l0) "tag_case"); unfold store.
    + split_and!; try reflexivity.
      * apply length_insert.
      * intros l Hl. simpl. apply list_lookup_insert_ne. congruence.
      * intros H. now destruct (H l0).
    + split_and!; reflexivity || (intros; reflexivity).
Qed.

(** X13.  A syntax-scoped override wins over the name: when the syntax is
    truthy and the resources give a non-empty profile name for it, [get] of
    any string name, registered or not, returns the profile registered under
    the override. *)
Theorem get_syntax_override (n p : string) (syntax : val) (l : loc) (σ : state) :
  truthy_val syntax = true ->
  getSubset syntax = VStr p ->
  p <> "" ->
  profiles σ !! toLowerCase p = Some l ->
  get getSubset (VStr n) syntax σ = (Normal (Value (VRef l)), σ).
Proof.
  intros Hsyn Hres Hp Hreg. unfold get, substitute.
  rewrite Hsyn, Hres. simpl.
  destruct (String.eqb_spec p "") as [|_]; [contradiction|]. simpl.
  unfold in_profiles, profiles_get. now rewrite Hreg.
Qed.

End Frames.

Lemma defaults_idempotent (m : gmap string prim) :
  defaults (defaults m defaultProfile) defaultProfile = defaults m defaultProfile.
Proof.
  apply map_eq. intros k. rewrite !lookup_defaults.
  destruct (m !! k) as [v|], (defaultProfile !! k) as [d|] eqn:Hd; try reflexivity.
  - destruct (nullish v) eqn:Hv; [|now rewrite Hv].
    assert (Hnn : nullish d = false).
    { unfold defaultProfile in Hd.
      assert (Hin : (k, d) ∈ defaultProfile_fields)
        by now apply elem_of_list_to_map_2.
      unfold defaultProfile_fields in Hin.
      repeat (apply elem_of_cons in Hin as [[= -> ->]|Hin]; [reflexivity|]).
      now apply elem_of_nil in Hin. }
    now rewrite Hnn.
  - assert (Hnn : nullish d = false).
    { unfold defaultProfile in Hd.
      assert (Hin : (k, d) ∈ defaultProfile_fields)
        by now apply elem_of_list_to_map_2.
      unfold defaultProfile_fields in Hin.
      repeat (apply elem_of_cons in Hin as [[= -> ->]|Hin]; [reflexivity|]).
      now apply elem_of_nil in Hin. }
    now rewrite Hnn.
Qed.

(** X14.  Completing an object with the defaults is idempotent: after
    [create(o)], a second [create(o)] returns [o] again and leaves the state
    exactly as the first call left it. *)
Theorem create_in_place_idempotent (l : loc) (σ : state) :
  let σ1 := snd (create [VRef l] σ) in
  create [VRef l] σ1 = (Normal (VRef l), σ1).
Proof.
  intros σ1. subst σ1. rewrite !create_object. simpl. f_equal.
  destruct (decide (l < length (heap σ))) as [Hlt|Hge].
  - rewrite (deref_Some _ l _ (list_lookup_insert_eq (heap σ) l _ Hlt)). simpl.
    now rewrite defaults_idempotent, list_insert_insert_eq.
  - rewrite (list_insert_ge (heap σ)) by lia.
    now rewrite (list_insert_ge (heap σ)) by lia.
Qed.

(** ** Registered profiles stay profiles *)

Lemma heap_extends_refl (h : list obj) : heap_extends h h.
Proof. intros l o Hl. eauto. Qed.

Lemma heap_extends_trans (h1 h2 h3 : list obj) :
  heap_extends h1 h2 -> heap_extends h2 h3 -> heap_extends h1 h3.
Proof.
  intros H12 H23 l o Hl.
  destruct (H12 l o Hl) as (o2 & Hl2 & Hc2).
  destruct (H23 l o2 Hl2) as (o3 & Hl3 & Hc3).
  exists o3. split; [assumption|congruence].
Qed.

Lemma heap_extends_snoc (h : list obj) (o : obj) : heap_extends h (h ++ [o]).
Proof. intros l o' Hl. exists o'. split; [now apply lookup_app_l_Some|reflexivity]. Qed.

(** A write that keeps the prototype of the object it changes. *)
Lemma heap_extends_write (h : list obj) (l : loc) (f : obj -> obj) :
  (forall o, cls (f o) = cls o) ->
  heap_extends h (<[l := f (deref h l)]> h).
Proof.
  intros Hf l' o Hl'. destruct (decide (l = l')) as [->|Hne].
  - exists (f (deref h l')). split.
    + apply list_lookup_insert_eq. eapply lookup_lt_Some, Hl'.
    + rewrite Hf. now rewrite (deref_Some _ _ _ Hl').
  - exists o. split; [now rewrite list_lookup_insert_ne|reflexivity].
Qed.

Lemma entries_live_mono (σ σ' : state) :
  entries_live σ ->
  (forall k l, profiles σ' !! k = Some l -> profiles σ !! k = Some l) ->
  heap_extends (heap σ) (heap σ') ->
  entries_live σ'.
Proof.
  intros Hσ Hsub Hext k l Hk.
  destruct (Hσ k l (Hsub k l Hk)) as (o & Hl & Hc).
  destruct (Hext l o Hl) as (o' & Hl' & Hc').
  exists o'. split; [assumption|congruence].
Qed.

Lemma defaults_in_place_extends (target : val) (σ : state) :
  heap_extends (heap σ) (heap (snd (defaults_in_place target σ))).
Proof.
  destruct target as [p|l]; simpl.
  - apply heap_extends_refl.
  - apply (heap_extends_write (heap σ) l
             (fun o => Obj (cls o) (defaults (props o) defaultProfile))).
    reflexivity.
Qed.

Lemma create_live (args : list val) (σ : state) :
  entries_live σ -> entries_live (snd (create args σ)).
Proof.
  intros Hσ. destruct (decide (length args = 2)) as [Hlen|Hlen].
  - unfold create. rewrite Hlen. simpl. unfold createProfile.
    destruct (val_toLowerCase (arg 0 args)) as [key|e]; [|exact Hσ].
    intros k l. simpl. rewrite lookup_insert_Some. intros [[_ <-]|[_ Hk]].
    + eexists. split; [apply snoc_lookup_new|reflexivity].
    + destruct (Hσ k l Hk) as (o & Hl & Hc).
      exists o. split; [now apply lookup_app_l_Some|assumption].
  - apply (entries_live_mono σ); [assumption| |].
    + intros k l. now rewrite create_object_profiles.
    + unfold create.
      destruct (Nat.eqb_spec (length args) 2) as [|_]; [contradiction|].
      destruct (truthy_val (arg 0 args)).
      * pose proof (defaults_in_place_extends (arg 0 args) σ) as H.
        now destruct (defaults_in_place (arg 0 args) σ).
      * unfold alloc.
        pose proof (defaults_in_place_extends (VRef (length (heap σ)))
                      (State (heap σ ++ [Obj Plain ∅]) (profiles σ) (console σ))) as H.
        destruct (defaults_in_place _ _) as [r σ'] eqn:E. simpl in *.
        eapply heap_extends_trans; [apply heap_extends_snoc|exact H].
Qed.

Lemma store_live (l : loc) (f : obj -> obj) (σ : state) :
  (forall o, cls (f o) = cls o) ->
  entries_live σ -> entries_live (store l f σ).
Proof.
  intros Hf Hσ. apply (entries_live_mono σ); [assumption|auto|].
  now apply heap_extends_write.
Qed.

Lemma init_live : entries_live init.
Proof.
  intros k l. rewrite init_profiles, !lookup_insert_Some, lookup_empty.
  intros [[_ <-]|[_ [[_ <-]|[_ [[_ <-]|[_ [[_ <-]|[_ H]]]]]]]];
    try discriminate; eexists; split; reflexivity.
Qed.

Section Invariant.

Variable getSubset : val -> val.

Lemma api_step_live (σ σ' : state) :
  api_step getSubset σ σ' -> entries_live σ -> entries_live σ'.
Proof.
  intros Hstep Hσ. destruct Hstep.
  - now apply create_live.
  - rewrite get_state.
    destruct (substitute getSubset name syntax) as [p|l]; [assumption|].
    destruct (has_property _ _); [|assumption].
    now apply store_live.
  - rewrite remove_state.
    destruct (val_toLowerCase _) as [key|e]; [|assumption].
    apply (entries_live_mono σ); [assumption| |apply heap_extends_refl].
    intros k l. simpl. rewrite lookup_delete_Some. tauto.
  - apply (entries_live_mono σ); [assumption|auto|apply heap_extends_refl].
  - apply (entries_live_mono σ); [assumption|auto|apply heap_extends_refl].
  - apply (entries_live_mono σ); [assumption|auto|apply heap_extends_snoc].
  - now apply store_live.
  - now apply store_live.
  - apply (entries_live_mono σ); [assumption|auto|apply heap_extends_refl].
Qed.

Lemma api_reachable_live (σ : state) :
  api_reachable getSubset σ -> entries_live σ.
Proof.
  unfold api_reachable. intros Hr.
  apply (rtc_ind_r (R := api_step getSubset) entries_live init); [| |exact Hr].
  - exact init_live.
  - intros σ1 σ2 _ Hstep IH. eapply api_step_live; eassumption.
Qed.

(** X15.  Whatever the callers do through the exported operations and on
    the objects they hold (assigning and deleting properties, allocating
    literals), [get] of a registered name returns a reference to an
    allocated [OutputProfile]: entries are only ever created by
    [createProfile], and neither completing an object in place nor removing
    an entry destroys or retypes the object another entry refers to. *)
Theorem registered_is_profile (σ : state) (n : string) (l : loc) :
  api_reachable getSubset σ ->
  profiles σ !! toLowerCase n = Some l ->
  exists o, get getSubset (VStr n) undefined σ = (Normal (Value (VRef l)), σ) /\
            heap σ !! l = Some o /\
            cls o = Profile.
Proof.
  intros Hr Hn.
  destruct (api_reachable_live σ Hr _ _ Hn) as (o & Hl & Hc).
  exists o. split_and!; [|assumption..].
  unfold get. rewrite substitute_no_syntax. unfold VStr.
  unfold in_profiles, profiles_get. now rewrite Hn.
Qed.

End Invariant.

(** ** The built-in profiles *)

(** X16.  Right after initialisation exactly four names are registered,
    [xhtml], [html], [xml] and [plain]; each of them lowercases tag and
    attribute names and quotes with the double quote; [xhtml] and [plain]
    close empty elements with [" /"], [xml] with ["/"], [html] not at all;
    [xhtml], [html] and [xml] place the cursor and indent, and [plain]
    alone switches off the cursor, indentation and the line break between
    tags ([tag_nl] is ["decide"] for [xhtml] and [html], true for [xml],
    false for [plain]). *)
Theorem init_builtins (caret : string) :
  (forall k, is_Some (profiles init !! k) <-> k ∈ ["xhtml"; "html"; "xml"; "plain"]) /\
  (forall k l s, profiles init !! k = Some l ->
     cls (deref (heap init) l) = Profile /\
     tagName (deref (heap init) l) (PStr s) = Normal (PStr (toLowerCase s)) /\
     attributeName (deref (heap init) l) (PStr s) = Normal (PStr (toLowerCase s)) /\
     attributeQuote (deref (heap init) l) = dquote) /\
  (forall l, profiles init !! "xhtml" = Some l ->
     selfClosing (deref (heap init) l) = " /" /\
     field (deref (heap init) l) "place_cursor" = PBool true /\
     cursor caret (deref (heap init) l) = caret /\
     field (deref (heap init) l) "indent" = PBool true /\
     field (deref (heap init) l) "tag_nl" = PStr "decide") /\
  (forall l, profiles init !! "html" = Some l ->
     selfClosing (deref (heap init) l) = "" /\
     field (deref (heap init) l) "place_cursor" = PBool true /\
     cursor caret (deref (heap init) l) = caret /\
     field (deref (heap init) l) "indent" = PBool true /\
     field (deref (heap init) l) "tag_nl" = PStr "decide") /\
  (forall l, profiles init !! "xml" = Some l ->
     selfClosing (deref (heap init) l) = "/" /\
     field (deref (heap init) l) "place_cursor" = PBool true /\
     cursor caret (deref (heap init) l) = caret /\
     field (deref (heap init) l) "indent" = PBool true /\
     field (deref (heap init) l) "tag_nl" = PBool true) /\
  (forall l, profiles init !! "plain" = Some l ->
     selfClosing (deref (heap init) l) = " /" /\
     field (deref (heap init) l) "place_cursor" = PBool false /\
     cursor caret (deref (heap init) l) = "" /\
     field (deref (heap init) l) "indent" = PBool false /\
     field (deref (heap init) l) "tag_nl" = PBool false).
Proof.
  split_and!.
  - intros k. rewrite init_profiles. split.
    + intros [l Hl]. revert Hl.
      rewrite !lookup_insert_Some, lookup_empty.
      intros [[<- _]|[_ [[<- _]|[_ [[<- _]|[_ [[<- _]|[_ H]]]]]]]];
        try discriminate; set_solver.
    + intros Hk.
      repeat (apply elem_of_cons in Hk as [->|Hk]; [eexists; reflexivity|]).
      now apply elem_of_nil in Hk.
  - intros k l s. rewrite init_profiles, !lookup_insert_Some, lookup_empty.
    intros [[_ <-]|[_ [[_ <-]|[_ [[_ <-]|[_ [[_ <-]|[_ H]]]]]]]];
      try discriminate; split_and!; reflexivity.
  - intros l [= <-]. split_and!; reflexivity.
  - intros l [= <-]. split_and!; reflexivity.
  - intros l [= <-]. split_and!; reflexivity.
  - intros l [= <-]. split_and!; reflexivity.
Qed.

(** ** Concrete runs of the further properties *)

Lemma create_remove_roundtrip_witness :
  profiles init !! "custom" = None /\
  profiles (snd (remove (VStr "CUSTOM") (snd (create [VStr "Custom"; undefined] init))))
  = profiles init.
Proof.
  split; [reflexivity|].
  apply (create_remove_roundtrip "Custom" "CUSTOM" undefined init);
    [discriminate|reflexivity|reflexivity].
Defined.

Lemma get_plain_fallback_witness :
  let σ0 := snd (literal [("self_closing_tag", PBool true)] init) in
  get no_resources undefined undefined init = (Normal (Value (VRef 6)), init) /\
  get no_resources (VRef 7) (VStr "css") σ0 = (Normal (Value (VRef 6)), σ0).
Proof.
  intros σ0. split.
  - assert (H : (exists p, undefined = VPrim p /\ truthy p = false /\
                           isString undefined = false) \/
                (exists l, undefined = VRef l /\
                           has_property (deref (heap init) l) "tag_case" = false)).
    { left. exists PUndef. repeat split. }
    exact (get_plain_fallback no_resources undefined undefined init H).
  - assert (H : (exists p, VRef 7 = VPrim p /\ truthy p = false /\
                           isString (VRef 7) = false) \/
                (exists l, VRef 7 = VRef l /\
                           has_property (deref (heap σ0) l) "tag_case" = false)).
    { right. exists 7. split; reflexivity. }
    exact (get_plain_fallback no_resources (VRef 7) (VStr "css") σ0 H).
Defined.


Lemma create_name_only_witness :
  create [VPrim (PStr "custom")] init = (Normal (VPrim (PStr "custom")), init).
Proof.
  apply (create_name_only (PStr "custom") [] init); [reflexivity|discriminate].
Defined.

Lemma create_fresh_defaults_witness :
  fst (create [] init) = Normal (VRef 7) /\
  heap (snd (create [] init)) !! 7 = Some (Obj Plain defaultProfile) /\
  profiles (snd (create [] init)) = profiles init /\
  fst (create [] (snd (create [] init))) = Normal (VRef 8).
Proof.
  assert (Hlen : length ([] : list val) <> 2) by discriminate.
  destruct (create_fresh_defaults [] init Hlen eq_refl) as (Hc & _ & _ & Hnext).
  rewrite Hc. split_and!; [reflexivity|reflexivity|reflexivity|exact Hnext].
Defined.

Lemma get_syntax_override_witness :
  get xml_resources (VStr "html") (VStr "css") init = (Normal (Value (VRef 4)), init).
Proof.
  apply (get_syntax_override xml_resources "html" "xml" (VStr "css") 4 init);
    [reflexivity|reflexivity|discriminate|reflexivity].
Defined.

Lemma registered_is_profile_witness :
  let σ1 := snd (create [VStr "Custom"; undefined] init) in
  let σ2 := store 7 (fun o => set_field o "tag_case" (PStr "upper")) σ1 in
  exists o, get no_resources (VStr "CUSTOM") undefined σ2 = (Normal (Value (VRef 7)), σ2) /\
            heap σ2 !! 7 = Some o /\
            cls o = Profile.
Proof.
  intros σ1 σ2.
  assert (Hr : api_reachable no_resources σ2).
  { eapply rtc_l.
    - apply (api_create no_resources [VStr "Custom"; undefined] init).
    - apply rtc_once.
      apply (api_assign no_resources 7 "tag_case" (PStr "upper")). }
  exact (registered_is_profile no_resources σ2 "CUSTOM" 7 Hr eq_refl).
Defined.

Lemma create_frame_witness :
  let σ1 := snd (create [VStr "Custom"; undefined] init) in
  heap σ1 !! 6 = heap init !! 6 /\
  length (heap σ1) = 8 /\
  profiles σ1 !! "plain" = Some 6 /\
  fst (get no_resources (VStr "XML") undefined σ1) = Normal (Value (VRef 4)).
Proof.
  intros σ1.
  assert (Hn : toLowerCase "Custom" <> "__proto__") by discriminate.
  destruct (create_frame no_resources "Custom" undefined init Hn)
    as (Hheap & Hlen & _ & Hkeys & Hget).
  split_and!.
  - apply Hheap. simpl. lia.
  - exact Hlen.
  - rewrite Hkeys by discriminate. reflexivity.
  - rewrite Hget by discriminate. reflexivity.
Defined.

(** ** Silent fallback *)





Section Fallback.

Variable getSubset : val -> val.
Variable getCaretPlaceholder : string.


End Fallback.

